(** * Value utilities: [flatten_dict], [value_match], [value_contains]

  A shallow embedding of
  [samples/python/modules/samples/utils/value_utils.py] and the
  properties its specification states about it.

  Python values are modelled by the inductive type [value]; a [dict] is an
  association list kept in insertion order, a [str] is a [string], an
  [int] is a [Z] and a [float] is an IEEE 754 datum ([spec_float]). *)

From Stdlib Require Import List Bool Arith ZArith Lia.
From Stdlib Require Import Ascii String DecimalString.
From Stdlib Require Import SpecFloat.
Import ListNotations.

Local Open Scope string_scope.
Local Open Scope list_scope.

(** ** Strings *)

Module Str.

(** [c.lower()] on one character of ASCII text. *)
Definition lower_char (c : ascii) : ascii :=
  let n := nat_of_ascii c in
  if ((65 <=? n) && (n <=? 90))%nat then ascii_of_nat (n + 32) else c.

(** [s.lower()]. *)
Fixpoint lower (s : string) : string :=
  match s with
  | EmptyString => EmptyString
  | String c s' => String (lower_char c) (lower s')
  end.

(** [s.replace(old, new)] for a one-character [old]. *)
Fixpoint replace (old : ascii) (new : string) (s : string) : string :=
  match s with
  | EmptyString => EmptyString
  | String c s' =>
      if Ascii.eqb c old then new ++ replace old new s'
      else String c (replace old new s')
  end.

(** [needle in hay] on two strings. *)
Fixpoint contains (needle hay : string) : bool :=
  if String.prefix needle hay then true
  else match hay with
       | EmptyString => false
       | String _ hay' => contains needle hay'
       end.

(** [str(i)] for a list index. *)
Definition of_index (i : nat) : string :=
  NilEmpty.string_of_uint (Nat.to_uint i).

(** The characters for which [str.isspace] holds in ASCII text. *)
Definition is_whitespace (c : ascii) : bool :=
  let n := nat_of_ascii c in
  (((9 <=? n) && (n <=? 13)) || ((28 <=? n) && (n <=? 32)))%nat.

(** The string without its whitespace characters. *)
Fixpoint strip_whitespace (s : string) : string :=
  match s with
  | EmptyString => EmptyString
  | String c s' =>
      if is_whitespace c then strip_whitespace s'
      else String c (strip_whitespace s')
  end.

End Str.

(** ** Values *)

Unset Elimination Schemes.

Inductive value : Type :=
| VNone
| VBool (b : bool)
| VInt (z : Z)
| VFloat (f : spec_float)
| VStr (s : string)
| VList (l : list value)
| VDict (d : list (string * value)).

Set Elimination Schemes.

(** A dict: its items in insertion order, the keys pairwise distinct. *)
Definition dict : Type := list (string * value).

Section ValueInd.

Variable P : value -> Prop.
Hypothesis HNone : P VNone.
Hypothesis HBool : forall b, P (VBool b).
Hypothesis HInt : forall z, P (VInt z).
Hypothesis HFloat : forall f, P (VFloat f).
Hypothesis HStr : forall s, P (VStr s).
Hypothesis HList : forall l, Forall P l -> P (VList l).
Hypothesis HDict : forall d, Forall (fun kv => P (snd kv)) d -> P (VDict d).

Fixpoint value_ind (v : value) : P v :=
  match v with
  | VNone => HNone
  | VBool b => HBool b
  | VInt z => HInt z
  | VFloat f => HFloat f
  | VStr s => HStr s
  | VList l =>
      HList l
        ((fix elems (l : list value) : Forall P l :=
            match l with
            | [] => Forall_nil P
            | x :: l' => Forall_cons x (value_ind x) (elems l')
            end) l)
  | VDict d =>
      HDict d
        ((fix entries (d : list (string * value))
            : Forall (fun kv => P (snd kv)) d :=
            match d with
            | [] => Forall_nil _
            | kv :: d' =>
                Forall_cons (P := fun kv => P (snd kv)) kv
                  (value_ind (snd kv)) (entries d')
            end) d)
  end.

End ValueInd.

(** [isinstance(v, dict)], [isinstance(v, list)], and the rest. *)
Definition is_scalar (v : value) : bool :=
  match v with
  | VList _ | VDict _ => false
  | _ => true
  end.

(** ** Dicts as ordered association lists *)

Module Dict.

(** [d.get(k)]: the value stored under [k]. *)
Fixpoint lookup (k : string) (d : dict) : option value :=
  match d with
  | [] => None
  | (k', v) :: d' => if String.eqb k k' then Some v else lookup k d'
  end.

(** [d[k] = v]: an existing key keeps its position and takes the new
    value, a new key goes to the end. *)
Fixpoint insert (k : string) (v : value) (d : dict) : dict :=
  match d with
  | [] => [(k, v)]
  | (k', v') :: d' =>
      if String.eqb k k' then (k', v) :: d' else (k', v') :: insert k v d'
  end.

(** [dict(items)]: the pairs are inserted from left to right. *)
Definition of_items (items : list (string * value)) : dict :=
  fold_left (fun d kv => insert (fst kv) (snd kv) d) items [].

(** [d.items()]. *)
Definition items (d : dict) : list (string * value) := d.

(** The value of the last pair of [items] whose key is [k]. *)
Fixpoint last_written (k : string) (items : list (string * value))
  : option value :=
  match items with
  | [] => None
  | (k', v) :: rest =>
      match last_written k rest with
      | Some w => Some w
      | None => if String.eqb k k' then Some v else None
      end
  end.

End Dict.

(** ** Native equality, [a == b] *)

Module Py.

(** [z == f] for an int and a float: the comparison is exact. *)
Definition int_float_eqb (z : Z) (f : spec_float) : bool :=
  match f with
  | S754_zero _ => (z =? 0)%Z
  | S754_finite s m e =>
      let n := if s then Z.neg m else Z.pos m in
      if (0 <=? e)%Z then (z =? n * 2 ^ e)%Z
      else (z * 2 ^ (- e) =? n)%Z
  | S754_infinity _ | S754_nan => false
  end.

(** [a == b] where neither side is a list or a dict.  A bool is an int
    (False is 0, True is 1); None equals only None; a str equals only
    the same str; two floats are compared as IEEE 754 prescribes, so
    that a NaN differs from everything. *)
Definition scalar_eq (a b : value) : bool :=
  match a, b with
  | VNone, VNone => true
  | VBool x, VBool y => Bool.eqb x y
  | VBool x, VInt z => (Z.b2z x =? z)%Z
  | VBool x, VFloat f => int_float_eqb (Z.b2z x) f
  | VInt z, VBool y => (z =? Z.b2z y)%Z
  | VInt z, VInt w => (z =? w)%Z
  | VInt z, VFloat f => int_float_eqb z f
  | VFloat f, VBool y => int_float_eqb (Z.b2z y) f
  | VFloat f, VInt z => int_float_eqb z f
  | VFloat f, VFloat g => SFeqb f g
  | VStr s, VStr t => String.eqb s t
  | _, _ => false
  end.

(** Both lists end together and every pair of elements satisfies [f]. *)
Definition list_eq {A B : Type} (f : A -> B -> bool)
  : list A -> list B -> bool :=
  fix go (l : list A) (m : list B) : bool :=
    match l, m with
    | [], [] => true
    | x :: l', y :: m' => if f x y then go l' m' else false
    | _, _ => false
    end.

(** [a == b].  Two lists are equal when they have the same length and
    equal elements; two dicts are equal when they have the same number
    of keys and every key of the one is a key of the other with an equal
    value, whatever the insertion order.  Elements are compared by value:
    the shortcut CPython takes for one object met on both sides is not
    part of the model. *)
Fixpoint eq (a b : value) {struct a} : bool :=
  match a, b with
  | VList l, VList m => list_eq eq l m
  | VDict d, VDict e =>
      if (List.length d =? List.length e)%nat then
        forallb (fun kv => match Dict.lookup (fst kv) e with
                           | Some w => eq (snd kv) w
                           | None => false
                           end) d
      else false
  | _, _ => scalar_eq a b
  end.

End Py.

(** ** The three functions *)

(** [all(f(v, c) for v, c in zip(l, m))]. *)
Definition all_zip {A B : Type} (f : A -> B -> bool)
  : list A -> list B -> bool :=
  fix go (l : list A) (m : list B) : bool :=
    match l, m with
    | v :: l', c :: m' => if f v c then go l' m' else false
    | _, _ => true
    end.

(** [value_match(value_a, value_b)].  Each typed loop leaves the function
    with False at its first failure; a loop that runs to its end falls
    through to the last line, [return value_a == value_b].  The keys of a
    dict being distinct, [value_a[key]] is the value paired with [key]. *)
Fixpoint value_match (value_a value_b : value) {struct value_a} : bool :=
  match value_a, value_b with
  | VStr s, VStr t => String.eqb (Str.lower s) (Str.lower t)
  | VList l, VList m =>
      if all_zip value_match l m
      then Py.eq value_a value_b
      else false
  | VDict d, VDict e =>
      if forallb (fun kv => match Dict.lookup (fst kv) e with
                            | None => false
                            | Some c => value_match (snd kv) c
                            end) d
      then Py.eq value_a value_b
      else false
  | _, _ => Py.eq value_a value_b
  end.

(** [value_contains(value_a, value_b)]. *)
Fixpoint value_contains (value_a value_b : value) {struct value_a} : bool :=
  match value_a, value_b with
  | VStr s, VStr t =>
      Str.contains (Str.lower (Str.replace " "%char EmptyString s))
                   (Str.lower (Str.replace " "%char EmptyString t))
  | VList l, VList m =>
      if forallb (fun v => existsb (fun c => value_contains v c) m) l
      then value_match value_a value_b
      else false
  | VDict d, VDict e =>
      if forallb (fun kv => match Dict.lookup (fst kv) e with
                            | None => false
                            | Some c => value_contains (snd kv) c
                            end) d
      then value_match value_a value_b
      else false
  | _, _ => value_match value_a value_b
  end.

(** [f"{parent_key}{sep}{k}" if parent_key else k]. *)
Definition compose_key (parent_key sep k : string) : string :=
  if String.eqb parent_key EmptyString then k else parent_key ++ sep ++ k.

(** [f"{new_key}_{i}"]. *)
Definition index_key (new_key : string) (i : nat) : string :=
  new_key ++ "_" ++ Str.of_index i.

(** The concatenation of [f i x] over the elements [x] of a list and
    their indices [i], counted from [start]. *)
Definition flat_mapi {A B : Type} (f : nat -> A -> list B)
  : nat -> list A -> list B :=
  fix go (start : nat) (l : list A) : list B :=
    match l with
    | [] => []
    | x :: l' => f start x ++ go (S start) l'
    end.

(** What one turn of the loop of [flatten_dict] adds to [items], for the
    pair [(k, v)] of [data].  The call on the one-entry dict
    [{f"{new_key}_{i}": item}] with the empty parent key runs this same
    loop body once, on the pair [(f"{new_key}_{i}", item)]. *)
Fixpoint flatten_pair (sep parent_key k : string) (v : value) {struct v}
  : list (string * value) :=
  let new_key := compose_key parent_key sep k in
  match v with
  | VDict d =>
      Dict.items
        (Dict.of_items
           (flat_map (fun kv => flatten_pair sep new_key (fst kv) (snd kv)) d))
  | VList l =>
      flat_mapi
        (fun i item =>
           Dict.items
             (Dict.of_items
                (flatten_pair sep EmptyString (index_key new_key i) item)))
        0 l
  | _ => [(new_key, v)]
  end.

(** [flatten_dict(data, parent_key, sep)]. *)
Definition flatten_dict (data : dict) (parent_key sep : string) : dict :=
  Dict.of_items
    (flat_map (fun kv => flatten_pair sep parent_key (fst kv) (snd kv)) data).

(** The pairs that the calls of [items.append] produce for [(k, v)], in
    the order in which they are executed, before any [dict(items)]. *)
Fixpoint appended (sep parent_key k : string) (v : value) {struct v}
  : list (string * value) :=
  let new_key := compose_key parent_key sep k in
  match v with
  | VDict d => flat_map (fun kv => appended sep new_key (fst kv) (snd kv)) d
  | VList l =>
      flat_mapi
        (fun i item => appended sep EmptyString (index_key new_key i) item)
        0 l
  | _ => [(new_key, v)]
  end.

(** All pairs appended during [flatten_dict(data, parent_key, sep)]. *)
Definition appended_all (data : dict) (parent_key sep : string)
  : list (string * value) :=
  flat_map (fun kv => appended sep parent_key (fst kv) (snd kv)) data.

(** ** The call structure, with a bound on the depth of calls *)

(** Nesting depth: 0 for a scalar, one more than the deepest member for
    a list or a dict. *)
Fixpoint depth (v : value) : nat :=
  match v with
  | VList l => S (list_max (map depth l))
  | VDict d => S (list_max (map (fun kv => depth (snd kv)) d))
  | _ => 0
  end.

Module Call.

(** A call either returns a result or runs out of call depth. *)
Definition bind {A B : Type} (x : option A) (f : A -> option B) : option B :=
  match x with
  | Some a => f a
  | None => None
  end.

Notation "x <- c ;; k" := (bind c (fun x => k))
  (at level 61, c at next level, right associativity).

(** [for x in l: acc = body(acc, x)]. *)
Fixpoint for_each {A S : Type} (body : S -> A -> option S) (l : list A)
  (acc : S) : option S :=
  match l with
  | [] => Some acc
  | x :: l' => acc' <- body acc x ;; for_each body l' acc'
  end.

(** [for x in l: if not test(x): return False], then True. *)
Fixpoint all_of {A : Type} (test : A -> option bool) (l : list A)
  : option bool :=
  match l with
  | [] => Some true
  | x :: l' => ok <- test x ;; if ok then all_of test l' else Some false
  end.

(** [any(test(x) for x in l)]. *)
Fixpoint any_of {A : Type} (test : A -> option bool) (l : list A)
  : option bool :=
  match l with
  | [] => Some false
  | x :: l' => ok <- test x ;; if ok then Some true else any_of test l'
  end.

(** [enumerate(l)]. *)
Definition enumerate {A : Type} (l : list A) : list (nat * A) :=
  combine (seq 0 (List.length l)) l.

(** [flatten_dict] as the source has it; [fuel] bounds the depth of the
    nested calls. *)
Fixpoint flatten_dict (fuel : nat) (data : dict) (parent_key sep : string)
  : option dict :=
  match fuel with
  | O => None
  | S fuel' =>
      items <-
        for_each
          (fun items kv =>
             let k := fst kv in
             let v := snd kv in
             let new_key := compose_key parent_key sep k in
             match v with
             | VDict d =>
                 r <- flatten_dict fuel' d new_key sep ;;
                 Some (items ++ Dict.items r)
             | VList l =>
                 for_each
                   (fun items ix =>
                      r <- flatten_dict fuel'
                             [(index_key new_key (fst ix), snd ix)]
                             EmptyString sep ;;
                      Some (items ++ Dict.items r))
                   (enumerate l) items
             | _ => Some (items ++ [(new_key, v)])
             end)
          data [] ;;
      Some (Dict.of_items items)
  end.

(** [value_match] as the source has it. *)
Fixpoint value_match (fuel : nat) (value_a value_b : value) : option bool :=
  match fuel with
  | O => None
  | S fuel' =>
      match value_a, value_b with
      | VStr s, VStr t => Some (String.eqb (Str.lower s) (Str.lower t))
      | VList l, VList m =>
          ok <- all_of (fun vc => value_match fuel' (fst vc) (snd vc))
                  (combine l m) ;;
          if ok then Some (Py.eq value_a value_b) else Some false
      | VDict d, VDict e =>
          ok <- all_of
                  (fun kv =>
                     match Dict.lookup (fst kv) e with
                     | None => Some false
                     | Some c => value_match fuel' (snd kv) c
                     end) d ;;
          if ok then Some (Py.eq value_a value_b) else Some false
      | _, _ => Some (Py.eq value_a value_b)
      end
  end.

(** [value_contains] as the source has it. *)
Fixpoint value_contains (fuel : nat) (value_a value_b : value)
  : option bool :=
  match fuel with
  | O => None
  | S fuel' =>
      match value_a, value_b with
      | VStr s, VStr t =>
          Some (Str.contains (Str.lower (Str.replace " "%char EmptyString s))
                             (Str.lower (Str.replace " "%char EmptyString t)))
      | VList l, VList m =>
          ok <- all_of
                  (fun v => any_of (fun c => value_contains fuel' v c) m) l ;;
          if ok then value_match fuel' value_a value_b else Some false
      | VDict d, VDict e =>
          ok <- all_of
                  (fun kv =>
                     match Dict.lookup (fst kv) e with
                     | None => Some false
                     | Some c => value_contains fuel' (snd kv) c
                     end) d ;;
          if ok then value_match fuel' value_a value_b else Some false
      | _, _ => value_match fuel' value_a value_b
      end
  end.

End Call.

(** ** The claim of the specification on whitespace, for comparison *)

Module Spec.

(** Containment of two strings as the specification words it: all
    whitespace is removed from each, both are lowercased, and the first
    must be a substring of the second. *)
Definition contains_str (a b : string) : bool :=
  Str.contains (Str.lower (Str.strip_whitespace a))
               (Str.lower (Str.strip_whitespace b)).

End Spec.

(** The string without its space characters, by filtering. *)
Definition drop_spaces (s : string) : string :=
  string_of_list_ascii
    (filter (fun c => negb (Ascii.eqb c " ")) (list_ascii_of_string s)).

(** The one-character string that holds a horizontal tab. *)
Definition tab : string := String (ascii_of_nat 9) EmptyString.

(** ** Well-formed values *)

(** The keys are pairwise distinct. *)
Fixpoint keys_distinct (ks : list string) : bool :=
  match ks with
  | [] => true
  | k :: ks' => negb (existsb (String.eqb k) ks') && keys_distinct ks'
  end.

(** Every dict inside the value has pairwise distinct keys, as every
    Python dict has. *)
Fixpoint well_formed (v : value) : bool :=
  match v with
  | VList l => forallb well_formed l
  | VDict d =>
      keys_distinct (map fst d) && forallb (fun kv => well_formed (snd kv)) d
  | _ => true
  end.

(** No float inside the value is a NaN. *)
Fixpoint nan_free (v : value) : bool :=
  match v with
  | VFloat S754_nan => false
  | VList l => forallb nan_free l
  | VDict d => forallb (fun kv => nan_free (snd kv)) d
  | _ => true
  end.

(** [isinstance(a, str) and isinstance(b, str)]. *)
Definition both_str (a b : value) : bool :=
  match a, b with
  | VStr _, VStr _ => true
  | _, _ => false
  end.

(** The keys of a list of pairs in the order of their first occurrence,
    which is the order in which [dict(items)] holds them. *)
Fixpoint first_keys (ks : list string) : list string :=
  match ks with
  | [] => []
  | k :: ks' => k :: filter (fun k' => negb (String.eqb k' k)) (first_keys ks')
  end.

(** [k not in ks]. *)
Definition absent (ks : list string) (k : string) : bool :=
  negb (existsb (String.eqb k) ks).

(** ** Facts on dicts *)

Section DictFacts.

Implicit Types (k : string) (v : value) (d : dict).

Lemma lookup_insert k k' v d :
  Dict.lookup k (Dict.insert k' v d) =
  if String.eqb k k' then Some v else Dict.lookup k d.
Proof.
  induction d as [|[k0 v0] d IH]; simpl.
  - destruct (String.eqb k k'); reflexivity.
  - destruct (String.eqb_spec k' k0) as [->|Hne]; simpl.
    + destruct (String.eqb k k0); reflexivity.
    + destruct (String.eqb_spec k k0) as [->|Hne'].
      * destruct (String.eqb_spec k0 k'); [congruence | reflexivity].
      * exact IH.
Qed.

Lemma insert_keys k v d x :
  In x (map fst (Dict.insert k v d)) <-> x = k \/ In x (map fst d).
Proof.
  induction d as [|[k0 v0] d IH]; simpl.
  - intuition.
  - destruct (String.eqb_spec k k0) as [->|Hne]; simpl.
    + intuition.
    + rewrite IH. intuition.
Qed.

Lemma insert_NoDup k v d :
  NoDup (map fst d) -> NoDup (map fst (Dict.insert k v d)).
Proof.
  induction d as [|[k0 v0] d IH]; simpl; intros Hd.
  - constructor; [intros [] | constructor].
  - inversion Hd as [|? ? Hnot Hd']; subst.
    destruct (String.eqb_spec k k0) as [->|Hne]; simpl.
    + constructor; assumption.
    + constructor; [|auto].
      rewrite insert_keys. intros [Heq|Hin]; [congruence | contradiction].
Qed.

Lemma insert_In k v d kv :
  In kv (Dict.insert k v d) -> snd kv = v \/ In kv d.
Proof.
  induction d as [|[k0 v0] d IH]; simpl.
  - intros [<-|[]]. left; reflexivity.
  - destruct (String.eqb k k0); simpl.
    + intros [<-|Hin]; [left; reflexivity | right; right; exact Hin].
    + intros [<-|Hin]; [right; left; reflexivity |].
      destruct (IH Hin); [left | right; right]; assumption.
Qed.

Lemma fold_insert_NoDup (l : list (string * value)) d :
  NoDup (map fst d) ->
  NoDup (map fst (fold_left (fun d kv => Dict.insert (fst kv) (snd kv) d) l d)).
Proof.
  revert d; induction l as [|kv l IH]; simpl; intros d Hd.
  - exact Hd.
  - apply IH, insert_NoDup, Hd.
Qed.

Lemma of_items_NoDup (l : list (string * value)) :
  NoDup (map fst (Dict.of_items l)).
Proof. apply fold_insert_NoDup. constructor. Qed.

Lemma fold_insert_lookup k (l : list (string * value)) d :
  Dict.lookup k (fold_left (fun d kv => Dict.insert (fst kv) (snd kv) d) l d) =
  match Dict.last_written k l with
  | Some w => Some w
  | None => Dict.lookup k d
  end.
Proof.
  revert d; induction l as [|[k0 v0] l IH]; simpl; intros d.
  - reflexivity.
  - rewrite IH, lookup_insert.
    destruct (Dict.last_written k l); [reflexivity|].
    destruct (String.eqb k k0); reflexivity.
Qed.

Lemma lookup_of_items k (l : list (string * value)) :
  Dict.lookup k (Dict.of_items l) = Dict.last_written k l.
Proof.
  unfold Dict.of_items. rewrite fold_insert_lookup.
  destruct (Dict.last_written k l); reflexivity.
Qed.

Lemma lookup_None k d : ~ In k (map fst d) -> Dict.lookup k d = None.
Proof.
  induction d as [|[k0 v0] d IH]; simpl; intros Hnot.
  - reflexivity.
  - destruct (String.eqb_spec k k0) as [->|Hne].
    + exfalso; apply Hnot; left; reflexivity.
    + apply IH. intros Hin; apply Hnot; right; exact Hin.
Qed.

Lemma last_written_None k d :
  ~ In k (map fst d) -> Dict.last_written k d = None.
Proof.
  induction d as [|[k0 v0] d IH]; simpl; intros Hnot.
  - reflexivity.
  - rewrite IH by (intros Hin; apply Hnot; right; exact Hin).
    destruct (String.eqb_spec k k0) as [->|Hne]; [|reflexivity].
    exfalso; apply Hnot; left; reflexivity.
Qed.

Lemma last_written_NoDup k d :
  NoDup (map fst d) -> Dict.last_written k d = Dict.lookup k d.
Proof.
  induction d as [|[k0 v0] d IH]; simpl; intros Hd.
  - reflexivity.
  - inversion Hd as [|? ? Hnot Hd']; subst.
    destruct (String.eqb_spec k k0) as [->|Hne].
    + rewrite last_written_None by exact Hnot. reflexivity.
    + rewrite IH by exact Hd'. destruct (Dict.lookup k d); reflexivity.
Qed.

Lemma last_written_app k (l1 l2 : list (string * value)) :
  Dict.last_written k (l1 ++ l2) =
  match Dict.last_written k l2 with
  | Some w => Some w
  | None => Dict.last_written k l1
  end.
Proof.
  induction l1 as [|[k0 v0] l1 IH]; simpl.
  - destruct (Dict.last_written k l2); reflexivity.
  - rewrite IH. destruct (Dict.last_written k l2); reflexivity.
Qed.

Lemma last_written_of_items k (l : list (string * value)) :
  Dict.last_written k (Dict.items (Dict.of_items l)) = Dict.last_written k l.
Proof.
  unfold Dict.items.
  rewrite last_written_NoDup by apply of_items_NoDup.
  apply lookup_of_items.
Qed.

Lemma filter_key_absent k d :
  ~ In k (map fst d) -> filter (fun kv => String.eqb k (fst kv)) d = [].
Proof.
  induction d as [|[k0 v0] d IH]; simpl; intros Hnot.
  - reflexivity.
  - destruct (String.eqb_spec k k0) as [->|Hne].
    + exfalso; apply Hnot; left; reflexivity.
    + apply IH. intros Hin; apply Hnot; right; exact Hin.
Qed.

Lemma filter_key_NoDup k d :
  NoDup (map fst d) ->
  filter (fun kv => String.eqb k (fst kv)) d =
  match Dict.lookup k d with
  | Some w => [(k, w)]
  | None => []
  end.
Proof.
  induction d as [|[k0 v0] d IH]; simpl; intros Hd.
  - reflexivity.
  - inversion Hd as [|? ? Hnot Hd']; subst.
    destruct (String.eqb_spec k k0) as [->|Hne].
    + rewrite filter_key_absent by exact Hnot. reflexivity.
    + apply IH, Hd'.
Qed.

Lemma of_items_Forall (Q : value -> Prop) (l : list (string * value)) :
  Forall (fun kv => Q (snd kv)) l ->
  Forall (fun kv => Q (snd kv)) (Dict.of_items l).
Proof.
  unfold Dict.of_items.
  assert (H : forall l d,
             Forall (fun kv => Q (snd kv)) l ->
             Forall (fun kv => Q (snd kv)) d ->
             Forall (fun kv => Q (snd kv))
               (fold_left (fun d kv => Dict.insert (fst kv) (snd kv) d) l d)).
  { clear l. induction l as [|kv l IH]; simpl; intros d Hl Hd.
    - exact Hd.
    - inversion Hl as [|? ? Hkv Hl']; subst.
      apply IH; [exact Hl'|].
      apply Forall_forall. intros x Hx.
      destruct (insert_In _ _ _ _ Hx) as [->|Hin]; [exact Hkv|].
      rewrite Forall_forall in Hd. apply Hd, Hin. }
  intros Hl. apply H; [exact Hl | constructor].
Qed.

End DictFacts.

(** ** Facts on [flatten_dict] *)

Section FlattenFacts.

Variable sep : string.

Lemma flat_mapi_Forall {A B : Type} (Q : B -> Prop) (f : nat -> A -> list B)
  (l : list A) :
  Forall (fun x => forall i, Forall Q (f i x)) l ->
  forall start, Forall Q (flat_mapi f start l).
Proof.
  induction 1 as [|x l Hx _ IH]; simpl; intros start.
  - constructor.
  - apply Forall_app; split; [apply Hx | apply IH].
Qed.

Lemma flat_map_Forall {A B : Type} (Q : B -> Prop) (f : A -> list B)
  (l : list A) :
  Forall (fun x => Forall Q (f x)) l -> Forall Q (flat_map f l).
Proof.
  induction 1 as [|x l Hx _ IH]; simpl.
  - constructor.
  - apply Forall_app; split; assumption.
Qed.

Lemma flatten_pair_scalar (v : value) :
  forall parent_key k,
    Forall (fun kv => is_scalar (snd kv) = true)
      (flatten_pair sep parent_key k v).
Proof.
  induction v as [| b | z | f | s | l IH | d IH] using value_ind;
    intros parent_key k; simpl;
    try (constructor; [reflexivity | constructor]).
  - apply flat_mapi_Forall.
    eapply Forall_impl; [|exact IH].
    intros item Hitem i. unfold Dict.items.
    apply (of_items_Forall (fun v => is_scalar v = true)), Hitem.
  - unfold Dict.items.
    apply (of_items_Forall (fun v => is_scalar v = true)).
    apply flat_map_Forall.
    eapply Forall_impl; [|exact IH].
    intros kv Hkv. apply Hkv.
Qed.

Lemma last_written_flat_map {A : Type} (key : string)
  (f g : A -> list (string * value)) (l : list A) :
  Forall (fun x => Dict.last_written key (f x) = Dict.last_written key (g x))
    l ->
  Dict.last_written key (flat_map f l) = Dict.last_written key (flat_map g l).
Proof.
  induction 1 as [|x l Hx _ IH]; simpl.
  - reflexivity.
  - rewrite !last_written_app, IH, Hx. reflexivity.
Qed.

Lemma last_written_flat_mapi {A : Type} (key : string)
  (f g : nat -> A -> list (string * value)) (l : list A) :
  Forall (fun x => forall i,
            Dict.last_written key (f i x) = Dict.last_written key (g i x)) l ->
  forall start,
    Dict.last_written key (flat_mapi f start l) =
    Dict.last_written key (flat_mapi g start l).
Proof.
  induction 1 as [|x l Hx _ IH]; simpl; intros start.
  - reflexivity.
  - rewrite !last_written_app, IH, Hx. reflexivity.
Qed.

Lemma last_written_flatten_pair (key : string) (v : value) :
  forall parent_key k,
    Dict.last_written key (flatten_pair sep parent_key k v) =
    Dict.last_written key (appended sep parent_key k v).
Proof.
  induction v as [| b | z | f | s | l IH | d IH] using value_ind;
    intros parent_key k; simpl; try reflexivity.
  - apply last_written_flat_mapi.
    eapply Forall_impl; [|exact IH].
    intros item Hitem i. rewrite last_written_of_items. apply Hitem.
  - rewrite last_written_of_items.
    apply last_written_flat_map.
    eapply Forall_impl; [|exact IH].
    intros kv Hkv. apply Hkv.
Qed.

Lemma lookup_flatten_dict (key : string) (data : dict) (parent_key : string) :
  Dict.lookup key (flatten_dict data parent_key sep) =
  Dict.last_written key (appended_all data parent_key sep).
Proof.
  unfold flatten_dict, appended_all. rewrite lookup_of_items.
  apply last_written_flat_map.
  apply Forall_forall. intros kv _. apply last_written_flatten_pair.
Qed.

End FlattenFacts.

(** ** Unfolding equations *)

Lemma value_match_list (l m : list value) :
  value_match (VList l) (VList m) =
  if all_zip value_match l m then Py.eq (VList l) (VList m) else false.
Proof. reflexivity. Qed.

Lemma value_match_dict (d e : dict) :
  value_match (VDict d) (VDict e) =
  if forallb (fun kv => match Dict.lookup (fst kv) e with
                        | None => false
                        | Some c => value_match (snd kv) c
                        end) d
  then Py.eq (VDict d) (VDict e) else false.
Proof. reflexivity. Qed.

Lemma value_contains_list (l m : list value) :
  value_contains (VList l) (VList m) =
  if forallb (fun v => existsb (fun c => value_contains v c) m) l
  then value_match (VList l) (VList m) else false.
Proof. reflexivity. Qed.

Lemma value_contains_dict (d e : dict) :
  value_contains (VDict d) (VDict e) =
  if forallb (fun kv => match Dict.lookup (fst kv) e with
                        | None => false
                        | Some c => value_contains (snd kv) c
                        end) d
  then value_match (VDict d) (VDict e) else false.
Proof. reflexivity. Qed.

Lemma py_eq_list (l m : list value) :
  Py.eq (VList l) (VList m) = Py.list_eq Py.eq l m.
Proof. reflexivity. Qed.

(** ** The depth of calls *)

Section CallFacts.

Lemma list_max_In (n : nat) (l : list nat) : In n l -> n <= list_max l.
Proof.
  intros Hin.
  assert (H : Forall (fun k => k <= list_max l) l)
    by (apply list_max_le; lia).
  rewrite Forall_forall in H. apply H, Hin.
Qed.

Lemma depth_element (v : value) (l : list value) :
  In v l -> depth v < depth (VList l).
Proof.
  intros Hin. simpl. apply Nat.lt_succ_r, list_max_In, in_map, Hin.
Qed.

Lemma depth_entry (kv : string * value) (d : dict) :
  In kv d -> depth (snd kv) < depth (VDict d).
Proof.
  intros Hin. simpl. apply Nat.lt_succ_r, list_max_In.
  apply (in_map (fun kv => depth (snd kv))), Hin.
Qed.

Lemma all_of_forallb {A : Type} (test : A -> option bool) (f : A -> bool)
  (l : list A) :
  (forall x, In x l -> test x = Some (f x)) ->
  Call.all_of test l = Some (forallb f l).
Proof.
  induction l as [|x l IH]; simpl; intros H.
  - reflexivity.
  - rewrite (H x) by (left; reflexivity). simpl.
    destruct (f x); [|reflexivity].
    apply IH. intros y Hy. apply H. right; exact Hy.
Qed.

Lemma any_of_existsb {A : Type} (test : A -> option bool) (f : A -> bool)
  (l : list A) :
  (forall x, In x l -> test x = Some (f x)) ->
  Call.any_of test l = Some (existsb f l).
Proof.
  induction l as [|x l IH]; simpl; intros H.
  - reflexivity.
  - rewrite (H x) by (left; reflexivity). simpl.
    destruct (f x); [reflexivity|].
    apply IH. intros y Hy. apply H. right; exact Hy.
Qed.

Lemma all_zip_combine {A B : Type} (f : A -> B -> bool) (l : list A)
  (m : list B) :
  all_zip f l m = forallb (fun vc => f (fst vc) (snd vc)) (combine l m).
Proof.
  revert m; induction l as [|v l IH]; intros [|c m]; simpl; try reflexivity.
  rewrite IH. destruct (f v c); reflexivity.
Qed.

Lemma for_each_append {A B : Type} (body : list B -> A -> option (list B))
  (g : A -> list B) (l : list A) :
  (forall acc x, In x l -> body acc x = Some (acc ++ g x)) ->
  forall acc, Call.for_each body l acc = Some (acc ++ flat_map g l).
Proof.
  induction l as [|x l IH]; simpl; intros H acc.
  - rewrite app_nil_r. reflexivity.
  - rewrite (H acc x) by (left; reflexivity). simpl.
    rewrite IH by (intros acc' y Hy; apply H; right; exact Hy).
    rewrite app_assoc. reflexivity.
Qed.

Lemma flat_mapi_combine {A B : Type} (f : nat -> A -> list B) (l : list A) :
  forall start,
    flat_mapi f start l =
    flat_map (fun ix => f (fst ix) (snd ix))
      (combine (seq start (List.length l)) l).
Proof.
  induction l as [|x l IH]; simpl; intros start.
  - reflexivity.
  - rewrite IH. reflexivity.
Qed.

Lemma call_value_match (fuel : nat) :
  forall a b,
    depth a < fuel -> Call.value_match fuel a b = Some (value_match a b).
Proof.
  induction fuel as [|fuel IH]; intros a b Hfuel; [lia|].
  destruct a as [| x | z | f | s | l | d], b as [| y | w | g | t | m | e];
    try reflexivity.
  - rewrite value_match_list, all_zip_combine.
    cbn [Call.value_match].
    rewrite (all_of_forallb _
               (fun vc => value_match (fst vc) (snd vc))).
    + simpl Call.bind.
      destruct (forallb _ (combine l m)); reflexivity.
    + intros [v c] Hin. apply IH.
      apply in_combine_l in Hin. apply depth_element in Hin.
      simpl fst. lia.
  - rewrite value_match_dict.
    cbn [Call.value_match].
    rewrite (all_of_forallb _
               (fun kv => match Dict.lookup (fst kv) e with
                          | None => false
                          | Some c => value_match (snd kv) c
                          end)).
    + simpl Call.bind. destruct (forallb _ d); reflexivity.
    + intros kv Hin. destruct (Dict.lookup (fst kv) e); [|reflexivity].
      apply IH. apply depth_entry in Hin. lia.
Qed.

Lemma call_value_contains (fuel : nat) :
  forall a b,
    S (depth a) < fuel ->
    Call.value_contains fuel a b = Some (value_contains a b).
Proof.
  induction fuel as [|fuel IH]; intros a b Hfuel; [lia|].
  assert (Hm : forall b', Call.value_match fuel a b' = Some (value_match a b'))
    by (intros b'; apply call_value_match; lia).
  destruct a as [| x | z | f | s | l | d], b as [| y | w | g | t | m | e];
    try (cbn [Call.value_contains]; rewrite Hm; reflexivity);
    try reflexivity.
  - rewrite value_contains_list.
    cbn [Call.value_contains].
    rewrite (all_of_forallb _
               (fun v => existsb (fun c => value_contains v c) m)).
    + simpl Call.bind.
      destruct (forallb _ l); [apply Hm | reflexivity].
    + intros v Hin. apply any_of_existsb. intros c _. apply IH.
      apply depth_element in Hin. lia.
  - rewrite value_contains_dict.
    cbn [Call.value_contains].
    rewrite (all_of_forallb _
               (fun kv => match Dict.lookup (fst kv) e with
                          | None => false
                          | Some c => value_contains (snd kv) c
                          end)).
    + simpl Call.bind. destruct (forallb _ d); [apply Hm | reflexivity].
    + intros kv Hin. destruct (Dict.lookup (fst kv) e); [|reflexivity].
      apply IH. apply depth_entry in Hin. lia.
Qed.

Lemma call_flatten_dict (sep : string) (fuel : nat) :
  forall data parent_key,
    depth (VDict data) <= fuel ->
    Call.flatten_dict fuel data parent_key sep =
    Some (flatten_dict data parent_key sep).
Proof.
  induction fuel as [|fuel IH]; intros data parent_key Hfuel;
    [simpl in Hfuel; lia|].
  cbn [Call.flatten_dict].
  rewrite (for_each_append _
             (fun kv => flatten_pair sep parent_key (fst kv) (snd kv))).
  - reflexivity.
  - intros acc [k v] Hin. apply depth_entry in Hin. simpl fst; simpl snd.
    simpl snd in Hin.
    destruct v as [| x | z | f | s | l | d]; try reflexivity.
    + cbn [flatten_pair]. rewrite flat_mapi_combine.
      apply for_each_append.
      intros acc' [i item] Hitem. simpl fst; simpl snd.
      apply in_combine_r, depth_element in Hitem.
      rewrite IH.
      * unfold flatten_dict. simpl. rewrite app_nil_r. reflexivity.
      * change (S (Nat.max (depth item) 0) <= fuel). lia.
    + rewrite IH by lia. reflexivity.
Qed.

End CallFacts.

(** ** Facts on strings *)

Section StrFacts.

Local Open Scope string_scope.

Lemma contains_unfold (needle hay : string) :
  Str.contains needle hay =
  if String.prefix needle hay then true
  else match hay with
       | EmptyString => false
       | String _ hay' => Str.contains needle hay'
       end.
Proof. destruct hay; reflexivity. Qed.

Lemma prefix_append (a q : string) : String.prefix a (a ++ q) = true.
Proof.
  induction a as [|c a IH]; simpl.
  - destruct q; reflexivity.
  - destruct (ascii_dec c c); [exact IH | congruence].
Qed.

Lemma prefix_split (a b : string) :
  String.prefix a b = true -> exists q, b = a ++ q.
Proof.
  revert b; induction a as [|c a IH]; intros b H.
  - exists b; reflexivity.
  - destruct b as [|c' b]; simpl in H; [discriminate|].
    destruct (ascii_dec c c') as [->|]; [|discriminate].
    destruct (IH b H) as [q ->]. exists q; reflexivity.
Qed.

Lemma contains_inside (a q p : string) :
  Str.contains a (p ++ a ++ q) = true.
Proof.
  induction p as [|c p IH]; rewrite contains_unfold.
  - simpl. rewrite prefix_append. reflexivity.
  - destruct (String.prefix a (String c p ++ a ++ q)); [reflexivity|].
    exact IH.
Qed.

Lemma contains_split (a b : string) :
  Str.contains a b = true -> exists p q, b = p ++ a ++ q.
Proof.
  induction b as [|c b IH]; rewrite contains_unfold; intros H.
  - destruct (String.prefix a EmptyString) eqn:Hp; [|discriminate].
    destruct (prefix_split _ _ Hp) as [q Hq].
    exists EmptyString, q. exact Hq.
  - destruct (String.prefix a (String c b)) eqn:Hp.
    + destruct (prefix_split _ _ Hp) as [q Hq].
      exists EmptyString, q. exact Hq.
    + destruct (IH H) as (p & q & ->).
      exists (String c p), q. reflexivity.
Qed.

Lemma contains_iff (a b : string) :
  Str.contains a b = true <-> exists p q, b = p ++ a ++ q.
Proof.
  split.
  - apply contains_split.
  - intros (p & q & ->). apply contains_inside.
Qed.

Lemma contains_refl (s : string) : Str.contains s s = true.
Proof.
  apply contains_iff. exists EmptyString, EmptyString.
  simpl. induction s as [|c s IH]; simpl; [reflexivity | f_equal; exact IH].
Qed.

Lemma contains_empty (hay : string) : Str.contains EmptyString hay = true.
Proof. rewrite contains_unfold. destruct hay; reflexivity. Qed.

Lemma replace_space_filter (s : string) :
  Str.replace " "%char EmptyString s = drop_spaces s.
Proof.
  unfold drop_spaces. induction s as [|c s IH]; simpl.
  - reflexivity.
  - destruct (Ascii.eqb c " "); simpl; rewrite IH; reflexivity.
Qed.

Lemma replace_only_spaces (s : string) :
  (forall c, In c (list_ascii_of_string s) -> c = " "%char) ->
  Str.replace " "%char EmptyString s = EmptyString.
Proof.
  induction s as [|c s IH]; simpl; intros H.
  - reflexivity.
  - rewrite (H c) by (left; reflexivity). simpl.
    apply IH. intros c' Hc'. apply H. right; exact Hc'.
Qed.

Lemma SFeqb_refl (f : spec_float) : f <> S754_nan -> SFeqb f f = true.
Proof.
  intros Hnan. unfold SFeqb, SFcompare.
  destruct f as [s | s | | s m e]; try reflexivity.
  - destruct s; reflexivity.
  - congruence.
  - rewrite Z.compare_refl, Pos.compare_cont_refl.
    destruct s; reflexivity.
Qed.

End StrFacts.

(** ** The fall-through to native equality *)

(** A list matches a list only if the two are equal under [==]; the
    same holds for two dicts. *)
Lemma value_match_list_eq (l m : list value) :
  value_match (VList l) (VList m) = true -> Py.eq (VList l) (VList m) = true.
Proof.
  rewrite value_match_list.
  destruct (all_zip value_match l m); [trivial | discriminate].
Qed.

Lemma list_eq_length {A B : Type} (f : A -> B -> bool) (l : list A)
  (m : list B) :
  Py.list_eq f l m = true -> List.length l = List.length m.
Proof.
  revert m; induction l as [|x l IH]; intros [|y m]; simpl;
    try discriminate; [reflexivity|].
  destruct (f x y); [|discriminate].
  intros H. f_equal. apply IH, H.
Qed.

Lemma value_match_list_length (l m : list value) :
  value_match (VList l) (VList m) = true -> List.length l = List.length m.
Proof.
  intros H. apply value_match_list_eq in H.
  rewrite py_eq_list in H. eapply list_eq_length, H.
Qed.

Lemma value_match_dict_length (d e : dict) :
  value_match (VDict d) (VDict e) = true -> List.length d = List.length e.
Proof.
  rewrite value_match_dict.
  destruct (forallb _ d); [|discriminate].
  simpl. destruct (Nat.eqb_spec (List.length d) (List.length e));
    [trivial | discriminate].
Qed.

Lemma value_contains_list_match (l m : list value) :
  value_contains (VList l) (VList m) = true ->
  value_match (VList l) (VList m) = true.
Proof.
  rewrite value_contains_list.
  destruct (forallb _ l); [trivial | discriminate].
Qed.

(** ** The properties of the specification *)

(** C1.  Whatever the dict, the parent key and the separator, every value
    of the dict that [flatten_dict] returns is a scalar: none is a list
    or a dict, so the result has depth 1. *)
Theorem flatten_dict_values_scalar (data : dict) (parent_key sep : string) :
  Forall (fun kv => is_scalar (snd kv) = true)
    (Dict.items (flatten_dict data parent_key sep)).
Proof.
  unfold flatten_dict, Dict.items.
  apply (of_items_Forall (fun v => is_scalar v = true)).
  apply flat_map_Forall, Forall_forall.
  intros kv _. apply flatten_pair_scalar.
Qed.

(** C2.  [value_match([1, 2, 3], [1, 2])] is False: the pairwise loop
    over the shorter length passes, and the function then answers with
    [[1, 2, 3] == [1, 2]].  [value_match([1, 2], [1, 3])] is False. *)
Theorem value_match_longer_list_false :
  value_match (VList [VInt 1; VInt 2; VInt 3]) (VList [VInt 1; VInt 2])
  = false
  /\ all_zip value_match [VInt 1; VInt 2; VInt 3] [VInt 1; VInt 2] = true
  /\ value_match (VList [VInt 1; VInt 2]) (VList [VInt 1; VInt 3]) = false.
Proof. repeat split. Qed.

(** C3.  [value_match({"a": 1}, {"a": 1, "b": 2})] is False: every key of
    the first dict is found in the second with a matching value, and the
    function then answers with [==] on the two dicts.
    [value_match({"a": 1, "b": 2}, {"a": 1})] is False. *)
Theorem value_match_larger_dict_false :
  value_match (VDict [("a", VInt 1)]) (VDict [("a", VInt 1); ("b", VInt 2)])
  = false
  /\ forallb
       (fun kv =>
          match Dict.lookup (fst kv) [("a", VInt 1); ("b", VInt 2)] with
          | None => false
          | Some c => value_match (snd kv) c
          end) [("a", VInt 1)] = true
  /\ value_match (VDict [("a", VInt 1); ("b", VInt 2)]) (VDict [("a", VInt 1)])
     = false.
Proof. repeat split. Qed.

(** C4.  [value_contains([1], [2, 1, 3])] is False: 1 is found in the
    second list, and the function then answers with
    [value_match([1], [2, 1, 3])], which pairs 1 with 2.
    [value_contains([1, 4], [1, 2])] is False. *)
Theorem value_contains_list_elsewhere_false :
  value_contains (VList [VInt 1]) (VList [VInt 2; VInt 1; VInt 3]) = false
  /\ forallb
       (fun v => existsb (fun c => value_contains v c)
                   [VInt 2; VInt 1; VInt 3]) [VInt 1] = true
  /\ value_contains (VList [VInt 1; VInt 4]) (VList [VInt 1; VInt 2]) = false.
Proof. repeat split. Qed.

(** C5.  Whatever the separator, the key built for the element at index
    [i] of a list joins the composite key and [i] with an underscore:
    with the separator ".", [{"a": [1, 2]}] flattens to
    [{"a_0": 1, "a_1": 2}], while [{"a": {"b": 1}}] flattens to
    [{"a.b": 1}]. *)
Theorem flatten_dict_index_underscore :
  (forall sep,
      flatten_dict [("a", VList [VInt 1; VInt 2])] EmptyString sep
      = [("a_0", VInt 1); ("a_1", VInt 2)])
  /\ flatten_dict [("a", VDict [("b", VInt 1)])] EmptyString "."
     = [("a.b", VInt 1)].
Proof. split; [intros sep|]; reflexivity. Qed.

(** C6, as amended.  On two strings [value_contains] removes the space
    characters of each and no other character (a tab stays), lowercases
    both, and returns whether the first result occurs inside the second;
    [value_contains("foo bar", "xfoobary")] is True and
    [value_contains("hello", "world")] is False. *)
Theorem value_contains_str_drops_spaces :
  (forall a b,
      value_contains (VStr a) (VStr b) = true <->
      exists p q,
        Str.lower (drop_spaces b)
        = (p ++ Str.lower (drop_spaces a) ++ q)%string)
  /\ drop_spaces ("a" ++ tab ++ " b")%string = ("a" ++ tab ++ "b")%string
  /\ value_contains (VStr "foo bar") (VStr "xfoobary") = true
  /\ value_contains (VStr "hello") (VStr "world") = false.
Proof.
  split; [|repeat split].
  intros a b. cbn [value_contains].
  rewrite !replace_space_filter. apply contains_iff.
Qed.

(** C6, as stated, fails: with all whitespace removed, "a<TAB>b" would be
    contained in "ab"; [value_contains] answers False. *)
Lemma value_contains_str_keeps_tab :
  Spec.contains_str ("a" ++ tab ++ "b")%string "ab" = true
  /\ value_contains (VStr ("a" ++ tab ++ "b")%string) (VStr "ab") = false.
Proof. split; reflexivity. Qed.

(** C7.  For every key, the dict returned by [flatten_dict] holds exactly
    one entry under that key when some pair with that key was appended,
    its value being that of the pair appended last, and no entry
    otherwise. *)
Theorem flatten_dict_last_write_wins (data : dict) (parent_key sep : string)
  (key : string) :
  filter (fun kv => String.eqb key (fst kv))
    (Dict.items (flatten_dict data parent_key sep))
  = match Dict.last_written key (appended_all data parent_key sep) with
    | Some w => [(key, w)]
    | None => []
    end.
Proof.
  unfold Dict.items.
  rewrite filter_key_NoDup by apply of_items_NoDup.
  rewrite lookup_flatten_dict. reflexivity.
Qed.

(** C8, as amended.  For every scalar [x] other than a float NaN, strings
    included, [value_contains(x, x)] is True. *)
Theorem value_contains_refl_scalar (x : value) :
  is_scalar x = true -> x <> VFloat S754_nan -> value_contains x x = true.
Proof.
  intros Hs Hnan.
  destruct x as [| b | z | f | s | l | d]; try discriminate; simpl.
  - reflexivity.
  - destruct b; reflexivity.
  - apply Z.eqb_refl.
  - apply SFeqb_refl. congruence.
  - apply contains_refl.
Qed.

Lemma value_contains_refl_scalar_witness :
  is_scalar (VStr "Total Due") = true
  /\ VStr "Total Due" <> VFloat S754_nan
  /\ value_contains (VStr "Total Due") (VStr "Total Due") = true.
Proof.
  split; [reflexivity|]. split; [discriminate|].
  apply (value_contains_refl_scalar (VStr "Total Due"));
    [reflexivity | discriminate].
Defined.

(** C8, as stated, fails: a float NaN is a scalar and
    [value_contains(nan, nan)] is False. *)
Lemma value_contains_nan_irreflexive :
  is_scalar (VFloat S754_nan) = true
  /\ value_contains (VFloat S754_nan) (VFloat S754_nan) = false.
Proof. split; reflexivity. Qed.

(** C9.  The three functions return on every value: a call whose nested
    calls may go [fuel] deep returns the result as soon as [fuel] exceeds
    the nesting depth of the first argument by two (by one for
    [value_match]; for [flatten_dict], as soon as it reaches the depth of
    the dict). *)
Theorem calls_return_within_depth (fuel : nat) (a b : value) (data : dict)
  (parent_key sep : string) :
  S (depth a) < fuel ->
  depth (VDict data) <= fuel ->
  Call.flatten_dict fuel data parent_key sep
  = Some (flatten_dict data parent_key sep)
  /\ Call.value_match fuel a b = Some (value_match a b)
  /\ Call.value_contains fuel a b = Some (value_contains a b).
Proof.
  intros Ha Hd. split; [|split].
  - apply call_flatten_dict, Hd.
  - apply call_value_match. lia.
  - apply call_value_contains, Ha.
Qed.

Lemma calls_return_within_depth_witness :
  S (depth (VList [VDict [("k", VStr "v")]])) < 4
  /\ depth (VDict [("a", VDict [("b", VList [VInt 1; VInt 2])])]) <= 4
  /\ Call.flatten_dict 4 [("a", VDict [("b", VList [VInt 1; VInt 2])])]
       EmptyString "_"
     = Some (flatten_dict [("a", VDict [("b", VList [VInt 1; VInt 2])])]
               EmptyString "_")
  /\ Call.value_match 4 (VList [VDict [("k", VStr "v")]]) (VList [])
     = Some (value_match (VList [VDict [("k", VStr "v")]]) (VList []))
  /\ Call.value_contains 4 (VList [VDict [("k", VStr "v")]]) (VList [])
     = Some (value_contains (VList [VDict [("k", VStr "v")]]) (VList [])).
Proof.
  split; [simpl; lia|]. split; [simpl; lia|].
  apply (calls_return_within_depth 4 (VList [VDict [("k", VStr "v")]])
           (VList []) [("a", VDict [("b", VList [VInt 1; VInt 2])])]
           EmptyString "_"); simpl; lia.
Defined.

(** C10, as amended.  When the first string consists of space characters
    only (the empty string included), [value_contains] returns True for
    every second string. *)
Theorem value_contains_blank_needle (a b : string) :
  (forall c, In c (list_ascii_of_string a) -> c = " "%char) ->
  value_contains (VStr a) (VStr b) = true.
Proof.
  intros Hblank. cbn [value_contains].
  rewrite (replace_only_spaces a Hblank). apply contains_empty.
Qed.

Lemma value_contains_blank_needle_witness :
  (forall c, In c (list_ascii_of_string "  ") -> c = " "%char)
  /\ value_contains (VStr "  ") (VStr "Invoice 42") = true.
Proof.
  assert (H : forall c, In c (list_ascii_of_string "  ") -> c = " "%char).
  { simpl. intros c [<-|[<-|[]]]; reflexivity. }
  split; [exact H|].
  apply (value_contains_blank_needle "  " "Invoice 42" H).
Defined.

(** C10, as stated, fails: a lone tab has an empty whitespace-stripped
    form, and [value_contains("<TAB>", "x")] is False. *)
Lemma value_contains_tab_needle :
  Str.strip_whitespace tab = EmptyString
  /\ value_contains (VStr tab) (VStr "x") = false.
Proof. split; reflexivity. Qed.

(** ** Further instances *)

(** The examples of key construction. *)
Example flatten_dict_nested :
  flatten_dict
    [("a", VDict [("b", VList [VInt 1; VDict [("c", VInt 2)]])])]
    EmptyString "_"
  = [("a_b_0", VInt 1); ("a_b_1_c", VInt 2)].
Proof. reflexivity. Qed.

(** Two paths to one composite key: the pair appended last is kept. *)
Example flatten_dict_collision :
  flatten_dict [("a", VDict [("b", VInt 1)]); ("a_b", VInt 2)]
    EmptyString "_"
  = [("a_b", VInt 2)]
  /\ appended_all [("a", VDict [("b", VInt 1)]); ("a_b", VInt 2)]
       EmptyString "_"
     = [("a_b", VInt 1); ("a_b", VInt 2)].
Proof. split; reflexivity. Qed.

(** Strings inside a list are compared by [==] in the end, case
    included, although each pair matches. *)
Example value_match_list_case :
  value_match (VStr "Hello") (VStr "hello") = true
  /\ all_zip value_match [VStr "Hello"] [VStr "hello"] = true
  /\ value_match (VList [VStr "Hello"]) (VList [VStr "hello"]) = false.
Proof. repeat split. Qed.

(** Containment falls back on the matcher for scalars. *)
Example value_contains_numbers :
  value_contains (VInt 5) (VInt 5) = true
  /\ value_contains (VInt 5) (VInt 6) = false
  /\ value_contains (VBool true) (VInt 1) = true.
Proof. repeat split. Qed.

(** ** Matching, containment and native equality *)

Section MatchFacts.

Lemma py_eq_dict (d e : dict) :
  Py.eq (VDict d) (VDict e) =
  if (List.length d =? List.length e)%nat then
    forallb (fun kv => match Dict.lookup (fst kv) e with
                       | Some w => Py.eq (snd kv) w
                       | None => false
                       end) d
  else false.
Proof. reflexivity. Qed.

Lemma list_eq_all_zip (l : list value) :
  Forall (fun a => forall b, Py.eq a b = true -> value_match a b = true) l ->
  forall m, Py.list_eq Py.eq l m = true -> all_zip value_match l m = true.
Proof.
  induction 1 as [|v l Hv _ IH]; intros [|c m]; simpl; try reflexivity.
  destruct (Py.eq v c) eqn:Hvc; [|discriminate].
  rewrite (Hv c Hvc). apply IH.
Qed.

Lemma forallb_lookup_impl (f g : value -> value -> bool) (e d : dict) :
  Forall (fun kv => forall c, f (snd kv) c = true -> g (snd kv) c = true) d ->
  forallb (fun kv => match Dict.lookup (fst kv) e with
                     | Some c => f (snd kv) c
                     | None => false
                     end) d = true ->
  forallb (fun kv => match Dict.lookup (fst kv) e with
                     | None => false
                     | Some c => g (snd kv) c
                     end) d = true.
Proof.
  induction 1 as [|kv d Hkv _ IH]; simpl; [reflexivity|].
  intros H. apply andb_true_iff in H as [H1 H2].
  rewrite (IH H2), andb_true_r.
  destruct (Dict.lookup (fst kv) e); [apply Hkv, H1 | discriminate].
Qed.

Lemma eq_implies_match (a : value) :
  forall b, Py.eq a b = true -> value_match a b = true.
Proof.
  induction a as [| x | z | f | s | l IH | d IH] using value_ind;
    intros b H; destruct b as [| y | w | g | t | m | e];
    try exact H; try discriminate H.
  - simpl in H. apply String.eqb_eq in H. subst t.
    simpl. apply String.eqb_refl.
  - rewrite value_match_list, H.
    rewrite (list_eq_all_zip l IH m H). reflexivity.
  - rewrite value_match_dict, H.
    rewrite py_eq_dict in H.
    destruct (List.length d =? List.length e)%nat; [|discriminate].
    rewrite (forallb_lookup_impl Py.eq value_match e d IH H). reflexivity.
Qed.

Lemma match_is_eq (a b : value) :
  both_str a b = false -> value_match a b = Py.eq a b.
Proof.
  intros Hstr.
  destruct (Py.eq a b) eqn:He; [apply eq_implies_match, He|].
  destruct a as [| x | z | f | s | l | d], b as [| y | w | g | t | m | e];
    try exact He; try discriminate Hstr.
  - rewrite value_match_list, He.
    destruct (all_zip value_match l m); reflexivity.
  - rewrite value_match_dict, He. destruct (forallb _ d); reflexivity.
Qed.

Lemma lower_char_space (c : ascii) :
  Ascii.eqb (Str.lower_char c) " " = Ascii.eqb c " ".
Proof. destruct c as [[] [] [] [] [] [] [] []]; reflexivity. Qed.

Lemma lower_replace_space (s : string) :
  Str.lower (Str.replace " "%char EmptyString s) =
  Str.replace " "%char EmptyString (Str.lower s).
Proof.
  induction s as [|c s IH]; simpl; [reflexivity|].
  rewrite lower_char_space.
  destruct (Ascii.eqb c " "); simpl; rewrite IH; reflexivity.
Qed.

Lemma all_zip_exists (m0 : list value) (l : list value) :
  Forall (fun a => forall b, value_match a b = true ->
                             value_contains a b = true) l ->
  forall m,
    all_zip value_match l m = true ->
    List.length l <= List.length m ->
    incl m m0 ->
    forallb (fun v => existsb (fun c => value_contains v c) m0) l = true.
Proof.
  induction 1 as [|v l Hv _ IH]; intros m Hzip Hlen Hincl; simpl;
    [reflexivity|].
  destruct m as [|c m]; [simpl in Hlen; lia|].
  simpl in Hzip, Hlen.
  destruct (value_match v c) eqn:Hvc; [|discriminate].
  apply andb_true_iff; split.
  - apply existsb_exists. exists c. split; [|apply Hv, Hvc].
    apply Hincl. left; reflexivity.
  - apply (IH m Hzip); [lia|].
    intros x Hx. apply Hincl. right; exact Hx.
Qed.

Lemma match_implies_contains (a : value) :
  forall b, value_match a b = true -> value_contains a b = true.
Proof.
  induction a as [| x | z | f | s | l IH | d IH] using value_ind;
    intros b H; destruct b as [| y | w | g | t | m | e];
    try exact H.
  - simpl in H. apply String.eqb_eq in H.
    cbn [value_contains]. rewrite !lower_replace_space, H.
    apply contains_refl.
  - rewrite value_contains_list, H.
    pose proof (value_match_list_length l m H) as Hlen.
    rewrite value_match_list in H.
    destruct (all_zip value_match l m) eqn:Hzip; [|discriminate].
    rewrite (all_zip_exists m l IH m Hzip); [reflexivity | lia |].
    intros x Hx; exact Hx.
  - rewrite value_contains_dict, H.
    rewrite value_match_dict in H.
    destruct (forallb _ d) eqn:Hall in H; [|discriminate].
    rewrite (forallb_lookup_impl value_match value_contains e d IH Hall).
    reflexivity.
Qed.


End MatchFacts.

(** ** Native equality on well-formed values *)

Section EqFacts.

Lemma keys_distinct_NoDup (ks : list string) :
  keys_distinct ks = true -> NoDup ks.
Proof.
  induction ks as [|k ks IH]; simpl; intros H; constructor.
  - apply andb_true_iff in H as [H _].
    intros Hin. apply negb_true_iff in H.
    assert (Hex : existsb (String.eqb k) ks = true)
      by (apply existsb_exists; exists k; split;
          [exact Hin | apply String.eqb_refl]).
    congruence.
  - apply andb_true_iff in H as [_ H]. apply IH, H.
Qed.

Lemma NoDup_keys_distinct (ks : list string) :
  NoDup ks -> keys_distinct ks = true.
Proof.
  induction 1 as [|k ks Hnot _ IH]; simpl; [reflexivity|].
  rewrite IH, andb_true_r. apply negb_true_iff.
  destruct (existsb (String.eqb k) ks) eqn:Hex; [|reflexivity].
  apply existsb_exists in Hex as (k' & Hin & Heq).
  apply String.eqb_eq in Heq. subst k'. contradiction.
Qed.

Lemma lookup_In (d : dict) (kv : string * value) :
  NoDup (map fst d) -> In kv d -> Dict.lookup (fst kv) d = Some (snd kv).
Proof.
  induction d as [|[k0 v0] d IH]; simpl; intros Hd Hin; [contradiction|].
  inversion Hd as [|? ? Hnot Hd']; subst.
  destruct Hin as [<-|Hin]; simpl.
  - rewrite String.eqb_refl. reflexivity.
  - destruct (String.eqb_spec (fst kv) k0) as [Heq|Hne]; [|apply IH; auto].
    exfalso. apply Hnot. rewrite <- Heq. apply in_map, Hin.
Qed.

Lemma lookup_Some_In (k : string) (w : value) (d : dict) :
  Dict.lookup k d = Some w -> In (k, w) d.
Proof.
  induction d as [|[k0 v0] d IH]; simpl; [discriminate|].
  destruct (String.eqb_spec k k0) as [->|Hne].
  - intros [= ->]. left; reflexivity.
  - intros H. right. apply IH, H.
Qed.

Lemma well_formed_dict (d : dict) :
  well_formed (VDict d) = true ->
  NoDup (map fst d) /\ forall kv, In kv d -> well_formed (snd kv) = true.
Proof.
  simpl. intros H. apply andb_true_iff in H as [Hk Hv]. split.
  - apply keys_distinct_NoDup, Hk.
  - intros kv Hin. rewrite forallb_forall in Hv. apply Hv, Hin.
Qed.

Lemma py_eq_dict_iff (d e : dict) :
  Py.eq (VDict d) (VDict e) = true <->
  List.length d = List.length e /\
  forall kv, In kv d ->
    exists w, Dict.lookup (fst kv) e = Some w /\ Py.eq (snd kv) w = true.
Proof.
  rewrite py_eq_dict. split.
  - destruct (Nat.eqb_spec (List.length d) (List.length e)) as [Hlen|];
      [|discriminate].
    intros H. split; [exact Hlen|].
    intros kv Hin. rewrite forallb_forall in H. specialize (H kv Hin).
    destruct (Dict.lookup (fst kv) e) as [w|]; [|discriminate].
    exists w. split; [reflexivity | exact H].
  - intros [Hlen H]. rewrite Hlen, Nat.eqb_refl.
    apply forallb_forall. intros kv Hin.
    destruct (H kv Hin) as (w & -> & Hw). exact Hw.
Qed.

(** Two dicts of the same size, one covered by the other key by key,
    cover each other. *)
Lemma dict_cover_converse (R : value -> value -> Prop) (d e : dict) :
  NoDup (map fst d) -> NoDup (map fst e) ->
  List.length d = List.length e ->
  (forall kv, In kv d ->
     exists w, Dict.lookup (fst kv) e = Some w /\ R (snd kv) w) ->
  forall kv, In kv e ->
    exists v, Dict.lookup (fst kv) d = Some v /\ R v (snd kv).
Proof.
  intros Hd He Hlen Hcover [k w] Hin.
  assert (Hincl : incl (map fst d) (map fst e)).
  { intros k0 Hk0. apply in_map_iff in Hk0 as ([k1 v1] & <- & Hin1).
    destruct (Hcover _ Hin1) as (w1 & Hl & _).
    apply lookup_Some_In in Hl. apply (in_map fst) in Hl. exact Hl. }
  assert (Hback : incl (map fst e) (map fst d)).
  { apply NoDup_length_incl; [exact Hd | | exact Hincl].
    rewrite !length_map. lia. }
  assert (Hk : In k (map fst d)) by (apply Hback, (in_map fst _ _ Hin)).
  apply in_map_iff in Hk as ([k1 v] & Hk1 & Hin1). simpl in Hk1. subst k1.
  destruct (Hcover _ Hin1) as (w' & Hl & HR). simpl in Hl, HR.
  pose proof (lookup_In e (k, w) He Hin) as Hw. simpl in Hw.
  rewrite Hw in Hl. injection Hl as <-.
  exists v. split; [|exact HR].
  apply (lookup_In d (k, v) Hd Hin1).
Qed.

Lemma SFeqb_sym (f g : spec_float) : SFeqb f g = SFeqb g f.
Proof.
  unfold SFeqb, SFcompare.
  destruct f as [s1 | s1 | | s1 m1 e1], g as [s2 | s2 | | s2 m2 e2];
    try reflexivity;
    try (destruct s1, s2; reflexivity);
    try (destruct s1; reflexivity);
    try (destruct s2; reflexivity).
  change (Pos.compare_cont Eq m1 m2) with (Pos.compare m1 m2).
  change (Pos.compare_cont Eq m2 m1) with (Pos.compare m2 m1).
  rewrite (Z.compare_antisym e1 e2), (Pos.compare_antisym m1 m2).
  destruct s1, s2, (e1 ?= e2)%Z, (m1 ?= m2)%positive; reflexivity.
Qed.

Lemma scalar_eq_sym (a b : value) : Py.scalar_eq a b = Py.scalar_eq b a.
Proof.
  destruct a as [| x | z | f | s | l | d], b as [| y | w | g | t | m | e];
    simpl; try reflexivity.
  - destruct x, y; reflexivity.
  - apply Z.eqb_sym.
  - apply Z.eqb_sym.
  - apply Z.eqb_sym.
  - apply SFeqb_sym.
  - apply String.eqb_sym.
Qed.

Lemma list_eq_sym (l : list value) :
  Forall (fun a => forall b, well_formed a = true -> well_formed b = true ->
                             Py.eq a b = Py.eq b a) l ->
  forall m,
    forallb well_formed l = true -> forallb well_formed m = true ->
    Py.list_eq Py.eq l m = Py.list_eq Py.eq m l.
Proof.
  induction 1 as [|v l Hv _ IH]; intros [|c m] Hl Hm; simpl;
    try reflexivity.
  simpl in Hl, Hm.
  apply andb_true_iff in Hl as [Hv1 Hl], Hm as [Hc1 Hm].
  rewrite (Hv c Hv1 Hc1), (IH m Hl Hm). reflexivity.
Qed.

Lemma py_eq_sym (a : value) :
  forall b, well_formed a = true -> well_formed b = true ->
            Py.eq a b = Py.eq b a.
Proof.
  induction a as [| x | z | f | s | l IH | d IH] using value_ind;
    intros b Ha Hb; destruct b as [| y | w | g | t | m | e];
    try (apply scalar_eq_sym); try reflexivity.
  - rewrite !py_eq_list. apply list_eq_sym; assumption.
  - destruct (well_formed_dict d Ha) as [Hd Hdv].
    destruct (well_formed_dict e Hb) as [He Hev].
    rewrite Forall_forall in IH.
    apply Bool.eq_true_iff_eq. rewrite !py_eq_dict_iff.
    split; intros [Hlen Hcover]; (split; [symmetry; exact Hlen|]).
    + intros kv Hin.
      destruct (dict_cover_converse (fun v w => Py.eq v w = true) d e
                  Hd He Hlen Hcover kv Hin) as (v & Hl & Hvw).
      exists v. split; [exact Hl|].
      pose proof (lookup_Some_In _ _ _ Hl) as Hv.
      pose proof (IH _ Hv (snd kv) (Hdv _ Hv) (Hev _ Hin)) as E.
      simpl in E. rewrite <- E. exact Hvw.
    + intros kv Hin.
      destruct (dict_cover_converse (fun w v => Py.eq w v = true) e d
                  He Hd Hlen Hcover kv Hin) as (w & Hl & Hwv).
      exists w. split; [exact Hl|].
      pose proof (lookup_Some_In _ _ _ Hl) as Hw.
      rewrite (IH _ Hin w (Hdv _ Hin) (Hev _ Hw)). exact Hwv.
Qed.

Lemma list_eq_refl (l : list value) :
  Forall (fun a => Py.eq a a = true) l -> Py.list_eq Py.eq l l = true.
Proof.
  induction 1 as [|v l Hv _ IH]; simpl; [reflexivity|].
  rewrite Hv. exact IH.
Qed.

Lemma py_eq_refl (a : value) :
  well_formed a = true -> nan_free a = true -> Py.eq a a = true.
Proof.
  induction a as [| x | z | f | s | l IH | d IH] using value_ind;
    intros Hwf Hnan.
  - reflexivity.
  - destruct x; reflexivity.
  - apply Z.eqb_refl.
  - apply SFeqb_refl. intros ->. discriminate Hnan.
  - apply String.eqb_refl.
  - rewrite py_eq_list. apply list_eq_refl.
    simpl in Hwf, Hnan. rewrite forallb_forall in Hwf, Hnan.
    rewrite Forall_forall in IH |- *.
    intros v Hv. apply IH; auto.
  - destruct (well_formed_dict d Hwf) as [Hd Hdv].
    simpl in Hnan. rewrite forallb_forall in Hnan.
    rewrite Forall_forall in IH.
    apply py_eq_dict_iff. split; [reflexivity|].
    intros kv Hin. exists (snd kv). split; [apply lookup_In; assumption|].
    apply IH; auto.
Qed.

End EqFacts.

(** ** More on strings *)

Section AppendFacts.

Local Open Scope string_scope.

Lemma str_app_assoc (a b c : string) : (a ++ b) ++ c = a ++ b ++ c.
Proof. induction a as [|x a IH]; simpl; [reflexivity | f_equal; exact IH]. Qed.

Lemma str_app_nil_r (a : string) : a ++ EmptyString = a.
Proof. induction a as [|x a IH]; simpl; [reflexivity | f_equal; exact IH]. Qed.

Lemma str_length_app (a b : string) :
  String.length (a ++ b) = String.length a + String.length b.
Proof. induction a as [|x a IH]; simpl; [reflexivity | f_equal; exact IH]. Qed.

Lemma str_length_zero (a : string) : String.length a = 0 -> a = EmptyString.
Proof. destruct a; [reflexivity | discriminate]. Qed.

Lemma prefix_trans (a b c : string) :
  String.prefix a b = true -> String.prefix b c = true ->
  String.prefix a c = true.
Proof.
  intros Hab Hbc.
  destruct (prefix_split _ _ Hab) as [q ->].
  destruct (prefix_split _ _ Hbc) as [q' ->].
  rewrite str_app_assoc. apply prefix_append.
Qed.

Lemma prefix_refl (a : string) : String.prefix a a = true.
Proof.
  rewrite <- (str_app_nil_r a) at 2. apply prefix_append.
Qed.

Lemma contains_trans (a b c : string) :
  Str.contains a b = true -> Str.contains b c = true ->
  Str.contains a c = true.
Proof.
  intros Hab Hbc.
  apply contains_iff in Hab as (p & q & ->).
  apply contains_iff in Hbc as (p' & q' & ->).
  apply contains_iff. exists (p' ++ p), (q ++ q').
  rewrite !str_app_assoc. reflexivity.
Qed.

Lemma contains_antisym (a b : string) :
  Str.contains a b = true -> Str.contains b a = true -> a = b.
Proof.
  intros Hab Hba.
  apply contains_iff in Hab as (p & q & Hb).
  apply contains_iff in Hba as (p' & q' & Ha).
  assert (Hlen : String.length p = 0 /\ String.length q = 0).
  { apply (f_equal String.length) in Ha, Hb.
    rewrite !str_length_app in Ha, Hb. lia. }
  destruct Hlen as [Hp Hq].
  apply str_length_zero in Hp, Hq. subst p q.
  simpl in Hb. rewrite str_app_nil_r in Hb. symmetry; exact Hb.
Qed.

Lemma prefix_compose_key (parent_key sep k : string) :
  String.prefix parent_key (compose_key parent_key sep k) = true.
Proof.
  unfold compose_key.
  destruct (String.eqb_spec parent_key EmptyString) as [->|_].
  - destruct k; reflexivity.
  - apply prefix_append.
Qed.

Lemma prefix_index_key (new_key : string) (i : nat) :
  String.prefix new_key (index_key new_key i) = true.
Proof. apply prefix_append. Qed.

End AppendFacts.

(** ** More on [flatten_dict] *)

Section FlattenMore.

Variable sep : string.

Lemma insert_fresh (k : string) (v : value) (d : dict) :
  ~ In k (map fst d) -> Dict.insert k v d = d ++ [(k, v)].
Proof.
  induction d as [|[k0 v0] d IH]; simpl; intros Hnot; [reflexivity|].
  destruct (String.eqb_spec k k0) as [->|Hne].
  - exfalso. apply Hnot. left; reflexivity.
  - rewrite IH; [reflexivity|]. intros Hin. apply Hnot. right; exact Hin.
Qed.

Lemma fold_insert_fresh (l : list (string * value)) :
  forall d,
    NoDup (map fst (d ++ l)) ->
    fold_left (fun d kv => Dict.insert (fst kv) (snd kv) d) l d = d ++ l.
Proof.
  induction l as [|[k v] l IH]; intros d Hnd; simpl.
  - rewrite app_nil_r. reflexivity.
  - assert (Heq : d ++ (k, v) :: l = (d ++ [(k, v)]) ++ l)
      by (rewrite <- app_assoc; reflexivity).
    rewrite Heq in Hnd |- *.
    rewrite insert_fresh.
    + apply IH, Hnd.
    + rewrite map_app in Hnd. apply NoDup_app_remove_r in Hnd.
      rewrite map_app in Hnd. simpl in Hnd.
      apply NoDup_remove_2 in Hnd. rewrite app_nil_r in Hnd. exact Hnd.
Qed.

Lemma of_items_distinct (l : list (string * value)) :
  NoDup (map fst l) -> Dict.of_items l = l.
Proof. intros H. apply (fold_insert_fresh l []), H. Qed.

Lemma flat_map_distinct {A : Type} (f g : A -> list (string * value))
  (l : list A) :
  Forall (fun x => NoDup (map fst (g x)) -> f x = g x) l ->
  NoDup (map fst (flat_map g l)) -> flat_map f l = flat_map g l.
Proof.
  induction 1 as [|x l Hx _ IH]; simpl; intros Hnd; [reflexivity|].
  rewrite map_app in Hnd.
  rewrite Hx by (apply NoDup_app_remove_r in Hnd; exact Hnd).
  rewrite IH by (apply NoDup_app_remove_l in Hnd; exact Hnd).
  reflexivity.
Qed.

Lemma flat_mapi_distinct {A : Type} (f g : nat -> A -> list (string * value))
  (l : list A) :
  Forall (fun x => forall i, NoDup (map fst (g i x)) -> f i x = g i x) l ->
  forall start,
    NoDup (map fst (flat_mapi g start l)) ->
    flat_mapi f start l = flat_mapi g start l.
Proof.
  induction 1 as [|x l Hx _ IH]; simpl; intros start Hnd; [reflexivity|].
  rewrite map_app in Hnd.
  rewrite Hx by (apply NoDup_app_remove_r in Hnd; exact Hnd).
  rewrite IH by (apply NoDup_app_remove_l in Hnd; exact Hnd).
  reflexivity.
Qed.

Lemma flatten_pair_distinct (v : value) :
  forall parent_key k,
    NoDup (map fst (appended sep parent_key k v)) ->
    flatten_pair sep parent_key k v = appended sep parent_key k v.
Proof.
  induction v as [| b | z | f | s | l IH | d IH] using value_ind;
    intros parent_key k Hnd; try reflexivity.
  - cbn [flatten_pair appended] in *.
    apply flat_mapi_distinct; [|exact Hnd].
    eapply Forall_impl; [|exact IH].
    intros item Hitem i Hi. unfold Dict.items.
    rewrite (Hitem _ _ Hi). apply of_items_distinct, Hi.
  - cbn [flatten_pair appended] in *. unfold Dict.items.
    rewrite (flat_map_distinct
               (fun kv => flatten_pair sep (compose_key parent_key sep k)
                            (fst kv) (snd kv))
               (fun kv => appended sep (compose_key parent_key sep k)
                            (fst kv) (snd kv))).
    + apply of_items_distinct, Hnd.
    + eapply Forall_impl; [|exact IH]. intros kv Hkv. apply Hkv.
    + exact Hnd.
Qed.

Lemma flatten_dict_distinct (data : dict) (parent_key : string) :
  NoDup (map fst (appended_all data parent_key sep)) ->
  flatten_dict data parent_key sep = appended_all data parent_key sep.
Proof.
  unfold flatten_dict, appended_all. intros Hnd.
  rewrite (flat_map_distinct
             (fun kv => flatten_pair sep parent_key (fst kv) (snd kv))
             (fun kv => appended sep parent_key (fst kv) (snd kv))).
  - apply of_items_distinct, Hnd.
  - apply Forall_forall. intros kv _. apply flatten_pair_distinct.
  - exact Hnd.
Qed.

Lemma appended_all_flat (data : dict) :
  Forall (fun kv => is_scalar (snd kv) = true) data ->
  appended_all data EmptyString sep = data.
Proof.
  unfold appended_all.
  induction 1 as [|[k v] data Hv _ IH]; simpl; [reflexivity|].
  rewrite IH. destruct v; try discriminate Hv; reflexivity.
Qed.

Lemma flatten_dict_flat (data : dict) :
  NoDup (map fst data) ->
  Forall (fun kv => is_scalar (snd kv) = true) data ->
  flatten_dict data EmptyString sep = data.
Proof.
  intros Hnd Hflat.
  rewrite flatten_dict_distinct; rewrite (appended_all_flat data Hflat);
    [reflexivity | exact Hnd].
Qed.

Lemma last_written_In (k : string) (w : value) (l : list (string * value)) :
  Dict.last_written k l = Some w -> In (k, w) l.
Proof.
  induction l as [|[k0 v0] l IH]; simpl; [discriminate|].
  destruct (Dict.last_written k l) as [w'|].
  - intros [= ->]. right. apply IH. reflexivity.
  - destruct (String.eqb_spec k k0) as [->|]; [|discriminate].
    intros [= ->]. left; reflexivity.
Qed.

Lemma last_written_key (k : string) (l : list (string * value)) :
  In k (map fst l) -> exists w, Dict.last_written k l = Some w.
Proof.
  induction l as [|[k0 v0] l IH]; simpl; [contradiction|].
  intros [->|Hin].
  - destruct (Dict.last_written k l) as [w|]; [exists w; reflexivity|].
    rewrite String.eqb_refl. exists v0; reflexivity.
  - destruct (IH Hin) as [w ->]. exists w; reflexivity.
Qed.

Lemma flatten_dict_incl (data : dict) (parent_key : string) :
  incl (Dict.items (flatten_dict data parent_key sep))
       (appended_all data parent_key sep).
Proof.
  intros [k v] Hin. unfold Dict.items in Hin.
  apply last_written_In. rewrite <- lookup_flatten_dict.
  apply (lookup_In _ (k, v)); [apply of_items_NoDup | exact Hin].
Qed.

Lemma flatten_dict_keys (data : dict) (parent_key : string) (k : string) :
  In k (map fst (appended_all data parent_key sep)) <->
  In k (map fst (Dict.items (flatten_dict data parent_key sep))).
Proof.
  split.
  - intros Hin. destruct (last_written_key _ _ Hin) as [w Hw].
    rewrite <- lookup_flatten_dict in Hw.
    apply lookup_Some_In in Hw. apply (in_map fst) in Hw. exact Hw.
  - intros Hin. apply in_map_iff in Hin as (kv & <- & Hin).
    apply in_map, flatten_dict_incl, Hin.
Qed.

Lemma appended_prefix (v : value) :
  forall parent_key k,
    Forall (fun kv =>
              String.prefix (compose_key parent_key sep k) (fst kv) = true)
      (appended sep parent_key k v).
Proof.
  induction v as [| b | z | f | s | l IH | d IH] using value_ind;
    intros parent_key k; cbn [appended];
    try (constructor; [apply prefix_refl | constructor]).
  - apply flat_mapi_Forall.
    eapply Forall_impl; [|exact IH].
    intros item Hitem i.
    eapply Forall_impl; [|apply Hitem].
    intros kv Hkv. simpl in Hkv.
    eapply prefix_trans; [apply prefix_index_key | exact Hkv].
  - apply flat_map_Forall.
    eapply Forall_impl; [|exact IH].
    intros kv Hkv.
    eapply Forall_impl; [|apply Hkv].
    intros kv' Hkv'. simpl in Hkv'.
    eapply prefix_trans; [apply prefix_compose_key | exact Hkv'].
Qed.

End FlattenMore.

(** ** The order of the keys *)

Section KeyOrder.

Variable sep : string.

Lemma absent_In (ks : list string) (k : string) :
  absent ks k = true <-> ~ In k ks.
Proof.
  unfold absent. rewrite negb_true_iff. split.
  - intros H Hin.
    assert (Hex : existsb (String.eqb k) ks = true)
      by (apply existsb_exists; exists k; split;
          [exact Hin | apply String.eqb_refl]).
    congruence.
  - intros Hnot. destruct (existsb (String.eqb k) ks) eqn:Hex; [|reflexivity].
    apply existsb_exists in Hex as (k' & Hin & Heq).
    apply String.eqb_eq in Heq. subst k'. contradiction.
Qed.

Lemma absent_ext (ks ks' : list string) :
  (forall k, In k ks <-> In k ks') ->
  forall k, absent ks k = absent ks' k.
Proof.
  intros H k. apply Bool.eq_true_iff_eq. rewrite !absent_In, H. reflexivity.
Qed.

Lemma filter_filter {A : Type} (f g : A -> bool) (l : list A) :
  filter f (filter g l) = filter (fun x => g x && f x) l.
Proof.
  induction l as [|x l IH]; simpl; [reflexivity|].
  destruct (g x); simpl; [destruct (f x)|]; rewrite IH; reflexivity.
Qed.

Lemma first_keys_In (ks : list string) (k : string) :
  In k (first_keys ks) <-> In k ks.
Proof.
  induction ks as [|k0 ks IH]; simpl; [reflexivity|].
  rewrite filter_In, IH, negb_true_iff, String.eqb_neq.
  destruct (String.eqb_spec k k0) as [->|Hne]; intuition congruence.
Qed.

Lemma first_keys_NoDup (ks : list string) : NoDup (first_keys ks).
Proof.
  induction ks as [|k0 ks IH]; simpl; constructor.
  - rewrite filter_In, negb_true_iff, String.eqb_neq. intros [_ H].
    apply H; reflexivity.
  - apply NoDup_filter, IH.
Qed.

Lemma first_keys_distinct (ks : list string) :
  NoDup ks -> first_keys ks = ks.
Proof.
  induction 1 as [|k ks Hnot _ IH]; simpl; [reflexivity|].
  rewrite IH. f_equal.
  apply forallb_filter_id, forallb_forall. intros k' Hin.
  apply negb_true_iff, String.eqb_neq. intros ->. contradiction.
Qed.

Lemma first_keys_app (a b : list string) :
  first_keys (a ++ b) = first_keys a ++ filter (absent a) (first_keys b).
Proof.
  induction a as [|k a IH]; simpl.
  - symmetry. apply forallb_filter_id, forallb_forall. reflexivity.
  - rewrite IH, filter_app, filter_filter. f_equal. f_equal.
    apply filter_ext. intros k'. unfold absent. simpl.
    rewrite negb_orb, andb_comm. reflexivity.
Qed.

Lemma first_keys_app_congr (a a' b b' : list string) :
  first_keys a = first_keys a' -> first_keys b = first_keys b' ->
  first_keys (a ++ b) = first_keys (a' ++ b').
Proof.
  intros Ha Hb. rewrite !first_keys_app, Ha, Hb. f_equal.
  apply filter_ext, absent_ext. intros k.
  rewrite <- (first_keys_In a), <- (first_keys_In a'), Ha. reflexivity.
Qed.

Lemma insert_keys_order (k : string) (v : value) (d : dict) :
  map fst (Dict.insert k v d) =
  if absent (map fst d) k then map fst d ++ [k] else map fst d.
Proof.
  unfold absent. induction d as [|[k0 v0] d IH]; simpl; [reflexivity|].
  destruct (String.eqb k k0); simpl; [reflexivity|].
  rewrite IH. destruct (existsb (String.eqb k) (map fst d)); reflexivity.
Qed.

Lemma fold_insert_keys (l : list (string * value)) :
  forall d,
    map fst (fold_left (fun d kv => Dict.insert (fst kv) (snd kv) d) l d) =
    map fst d ++ filter (absent (map fst d)) (first_keys (map fst l)).
Proof.
  induction l as [|[k v] l IH]; intros d; simpl.
  - rewrite app_nil_r. reflexivity.
  - rewrite IH, insert_keys_order, filter_filter.
    destruct (absent (map fst d) k) eqn:Hk.
    + rewrite <- app_assoc. simpl. do 2 f_equal.
      apply filter_ext. intros k'. unfold absent.
      rewrite existsb_app. simpl.
      rewrite orb_false_r, negb_orb, andb_comm. reflexivity.
    + f_equal. apply filter_ext. intros k'.
      destruct (String.eqb_spec k' k) as [->|]; simpl; [|reflexivity].
      rewrite Hk. reflexivity.
Qed.

Lemma of_items_keys (l : list (string * value)) :
  map fst (Dict.of_items l) = first_keys (map fst l).
Proof.
  unfold Dict.of_items. rewrite fold_insert_keys. simpl.
  apply forallb_filter_id, forallb_forall. reflexivity.
Qed.

Lemma first_keys_idem (ks : list string) :
  first_keys (first_keys ks) = first_keys ks.
Proof. apply first_keys_distinct, first_keys_NoDup. Qed.

Lemma first_keys_flat_map {A : Type} (f g : A -> list (string * value))
  (l : list A) :
  Forall (fun x => first_keys (map fst (f x)) = first_keys (map fst (g x)))
    l ->
  first_keys (map fst (flat_map f l)) = first_keys (map fst (flat_map g l)).
Proof.
  induction 1 as [|x l Hx _ IH]; simpl; [reflexivity|].
  rewrite !map_app. apply first_keys_app_congr; assumption.
Qed.

Lemma first_keys_flat_mapi {A : Type}
  (f g : nat -> A -> list (string * value)) (l : list A) :
  Forall (fun x => forall i,
            first_keys (map fst (f i x)) = first_keys (map fst (g i x))) l ->
  forall start,
    first_keys (map fst (flat_mapi f start l)) =
    first_keys (map fst (flat_mapi g start l)).
Proof.
  induction 1 as [|x l Hx _ IH]; simpl; intros start; [reflexivity|].
  rewrite !map_app. apply first_keys_app_congr; [apply Hx | apply IH].
Qed.

Lemma flatten_pair_keys (v : value) :
  forall parent_key k,
    first_keys (map fst (flatten_pair sep parent_key k v)) =
    first_keys (map fst (appended sep parent_key k v)).
Proof.
  induction v as [| b | z | f | s | l IH | d IH] using value_ind;
    intros parent_key k; try reflexivity; cbn [flatten_pair appended].
  - apply first_keys_flat_mapi.
    eapply Forall_impl; [|exact IH].
    intros item Hitem i. unfold Dict.items.
    rewrite of_items_keys, first_keys_idem. apply Hitem.
  - unfold Dict.items. rewrite of_items_keys, first_keys_idem.
    apply first_keys_flat_map.
    eapply Forall_impl; [|exact IH]. intros kv Hkv. apply Hkv.
Qed.

Lemma flatten_dict_key_order (data : dict) (parent_key : string) :
  map fst (Dict.items (flatten_dict data parent_key sep)) =
  first_keys (map fst (appended_all data parent_key sep)).
Proof.
  unfold flatten_dict, appended_all, Dict.items. rewrite of_items_keys.
  apply first_keys_flat_map, Forall_forall.
  intros kv _. apply flatten_pair_keys.
Qed.

End KeyOrder.

(** ** Normal forms of strings *)

Section NormalForm.





End NormalForm.

(** ** Further properties of the three functions *)

(** X1.  A dict whose values are all scalars is returned unchanged when
    it is flattened with the empty parent key, whatever the separator. *)
Theorem flatten_dict_flat_identity (data : dict) (sep : string) :
  NoDup (map fst data) ->
  Forall (fun kv => is_scalar (snd kv) = true) data ->
  flatten_dict data EmptyString sep = data.
Proof. apply flatten_dict_flat. Qed.

Lemma flatten_dict_flat_identity_witness :
  NoDup (map fst [("total", VInt 42); ("name", VStr "Contoso")])
  /\ Forall (fun kv => is_scalar (snd kv) = true)
       [("total", VInt 42); ("name", VStr "Contoso")]
  /\ flatten_dict [("total", VInt 42); ("name", VStr "Contoso")]
       EmptyString "/"
     = [("total", VInt 42); ("name", VStr "Contoso")].
Proof.
  assert (H1 : NoDup (map fst [("total", VInt 42); ("name", VStr "Contoso")]))
    by (apply keys_distinct_NoDup; reflexivity).
  assert (H2 : Forall (fun kv => is_scalar (snd kv) = true)
                 [("total", VInt 42); ("name", VStr "Contoso")])
    by (repeat constructor).
  split; [exact H1|]. split; [exact H2|].
  apply (flatten_dict_flat_identity
           [("total", VInt 42); ("name", VStr "Contoso")] "/" H1 H2).
Defined.

(** X2.  Flattening is idempotent: flattening the result once more, with
    the empty parent key and any separator, changes nothing. *)
Theorem flatten_dict_idempotent (data : dict) (parent_key sep sep' : string) :
  flatten_dict (flatten_dict data parent_key sep) EmptyString sep'
  = flatten_dict data parent_key sep.
Proof.
  apply flatten_dict_flat.
  - apply of_items_NoDup.
  - unfold flatten_dict.
    apply (of_items_Forall (fun v => is_scalar v = true)).
    apply flat_map_Forall, Forall_forall.
    intros kv _. apply flatten_pair_scalar.
Qed.

(** X3.  The result of [flatten_dict] is the list of all appended pairs,
    in the order of appending, exactly when no two of them have the same
    key: an entry is lost only to a collision. *)
Theorem flatten_dict_lossless_iff (data : dict) (parent_key sep : string) :
  flatten_dict data parent_key sep = appended_all data parent_key sep
  <-> NoDup (map fst (appended_all data parent_key sep)).
Proof.
  split.
  - intros H. rewrite <- H. apply of_items_NoDup.
  - apply flatten_dict_distinct.
Qed.

(** X4.  Every entry of the flattened dict is one of the appended pairs,
    and every key of an appended pair is a key of the flattened dict:
    no pair is invented and no key is dropped. *)
Theorem flatten_dict_entries (data : dict) (parent_key sep : string) :
  incl (Dict.items (flatten_dict data parent_key sep))
       (appended_all data parent_key sep)
  /\ forall k,
       In k (map fst (appended_all data parent_key sep)) <->
       In k (map fst (Dict.items (flatten_dict data parent_key sep))).
Proof.
  split; [apply flatten_dict_incl | apply flatten_dict_keys].
Qed.

(** X5.  With a non-empty parent key, every key of the flattened dict
    starts with the parent key followed by the separator. *)
Theorem flatten_dict_keys_prefixed (data : dict) (parent_key sep : string) :
  parent_key <> EmptyString ->
  Forall (fun kv => String.prefix (parent_key ++ sep)%string (fst kv) = true)
    (Dict.items (flatten_dict data parent_key sep)).
Proof.
  intros Hne. apply Forall_forall. intros kv Hin.
  apply flatten_dict_incl in Hin. unfold appended_all in Hin.
  apply in_flat_map in Hin as (kv0 & _ & Hin).
  pose proof (appended_prefix sep (snd kv0) parent_key (fst kv0)) as Hpre.
  rewrite Forall_forall in Hpre. specialize (Hpre kv Hin).
  eapply prefix_trans; [|exact Hpre].
  unfold compose_key.
  destruct (String.eqb_spec parent_key EmptyString) as [|_]; [contradiction|].
  rewrite <- str_app_assoc. apply prefix_append.
Qed.

Lemma flatten_dict_keys_prefixed_witness :
  "doc" <> EmptyString
  /\ Forall (fun kv => String.prefix ("doc" ++ ".")%string (fst kv) = true)
       (Dict.items
          (flatten_dict
             [("id", VInt 7); ("lines", VList [VDict [("qty", VInt 2)]])]
             "doc" ".")).
Proof.
  assert (H : "doc" <> EmptyString) by discriminate.
  split; [exact H|].
  apply (flatten_dict_keys_prefixed
           [("id", VInt 7); ("lines", VList [VDict [("qty", VInt 2)]])]
           "doc" "." H).
Defined.

(** X6.  The keys of the flattened dict stand in the order in which they
    were first appended. *)
Theorem flatten_dict_key_order_first (data : dict) (parent_key sep : string) :
  map fst (Dict.items (flatten_dict data parent_key sep))
  = first_keys (map fst (appended_all data parent_key sep)).
Proof. apply flatten_dict_key_order. Qed.

(** X7.  The parent key acts as an enclosing dict: flattening
    [{parent_key: data}] with the empty parent key gives the same result
    as flattening [data] under [parent_key]. *)
Theorem flatten_dict_parent_wraps (data : dict) (parent_key sep : string) :
  flatten_dict [(parent_key, VDict data)] EmptyString sep
  = flatten_dict data parent_key sep.
Proof.
  unfold flatten_dict at 1. cbn [flat_map fst snd flatten_pair].
  rewrite app_nil_r. unfold Dict.items.
  change (compose_key EmptyString sep parent_key) with parent_key.
  apply of_items_distinct, of_items_NoDup.
Qed.









(** X12.  On values whose dicts have distinct keys, [value_match] is
    symmetric: swapping the arguments does not change the answer. *)
Theorem value_match_symmetric (a b : value) :
  well_formed a = true -> well_formed b = true ->
  value_match a b = value_match b a.
Proof.
  intros Ha Hb. destruct (both_str a b) eqn:Hstr.
  - destruct a, b; try discriminate Hstr. simpl. apply String.eqb_sym.
  - rewrite (match_is_eq a b Hstr).
    rewrite (match_is_eq b a)
      by (destruct a, b; try reflexivity; discriminate Hstr).
    apply py_eq_sym; assumption.
Qed.

Lemma value_match_symmetric_witness :
  well_formed (VDict [("a", VInt 1)]) = true
  /\ well_formed (VDict [("a", VInt 1); ("b", VInt 2)]) = true
  /\ value_match (VDict [("a", VInt 1)]) (VDict [("a", VInt 1); ("b", VInt 2)])
     = value_match (VDict [("a", VInt 1); ("b", VInt 2)])
         (VDict [("a", VInt 1)]).
Proof.
  split; [reflexivity|]. split; [reflexivity|].
  apply (value_match_symmetric (VDict [("a", VInt 1)])
           (VDict [("a", VInt 1); ("b", VInt 2)])); reflexivity.
Defined.

(** X13.  A value without NaN, whose dicts have distinct keys, matches
    itself and contains itself, lists and dicts included. *)
Theorem value_match_reflexive (a : value) :
  well_formed a = true -> nan_free a = true ->
  value_match a a = true /\ value_contains a a = true.
Proof.
  intros Hwf Hnan.
  pose proof (eq_implies_match a a (py_eq_refl a Hwf Hnan)) as H.
  split; [exact H | apply match_implies_contains, H].
Qed.

Lemma value_match_reflexive_witness :
  well_formed (VDict [("items", VList [VStr "A"; VNone])]) = true
  /\ nan_free (VDict [("items", VList [VStr "A"; VNone])]) = true
  /\ value_match (VDict [("items", VList [VStr "A"; VNone])])
                 (VDict [("items", VList [VStr "A"; VNone])]) = true
  /\ value_contains (VDict [("items", VList [VStr "A"; VNone])])
                    (VDict [("items", VList [VStr "A"; VNone])]) = true.
Proof.
  split; [reflexivity|]. split; [reflexivity|].
  apply (value_match_reflexive (VDict [("items", VList [VStr "A"; VNone])]));
    reflexivity.
Defined.

(** X14.  Containment of strings is transitive. *)
Theorem value_contains_str_transitive (a b c : string) :
  value_contains (VStr a) (VStr b) = true ->
  value_contains (VStr b) (VStr c) = true ->
  value_contains (VStr a) (VStr c) = true.
Proof. cbn [value_contains]. apply contains_trans. Qed.

Lemma value_contains_str_transitive_witness :
  value_contains (VStr "o b") (VStr "Foo Bar") = true
  /\ value_contains (VStr "Foo Bar") (VStr "x FOOBAR y") = true
  /\ value_contains (VStr "o b") (VStr "x FOOBAR y") = true.
Proof.
  split; [reflexivity|]. split; [reflexivity|].
  apply (value_contains_str_transitive "o b" "Foo Bar" "x FOOBAR y");
    reflexivity.
Defined.

(** X15.  Two strings that contain each other match once their spaces
    are removed. *)
Theorem value_contains_str_mutual (a b : string) :
  value_contains (VStr a) (VStr b) = true ->
  value_contains (VStr b) (VStr a) = true ->
  value_match (VStr (Str.replace " "%char EmptyString a))
              (VStr (Str.replace " "%char EmptyString b)) = true.
Proof.
  cbn [value_contains value_match]. intros Hab Hba.
  rewrite (contains_antisym _ _ Hab Hba). apply String.eqb_refl.
Qed.

Lemma value_contains_str_mutual_witness :
  value_contains (VStr "Foo Bar") (VStr "f oobar") = true
  /\ value_contains (VStr "f oobar") (VStr "Foo Bar") = true
  /\ value_match (VStr (Str.replace " "%char EmptyString "Foo Bar"))
                 (VStr (Str.replace " "%char EmptyString "f oobar")) = true.
Proof.
  split; [reflexivity|]. split; [reflexivity|].
  apply (value_contains_str_mutual "Foo Bar" "f oobar"); reflexivity.
Defined.

